(** * Synthetic data generator ([data_gen.py]): model and verified properties

    The development embeds the preset catalog, [load_scenario], the three
    samplers, [validate_inputs] and the generate step of [main].

    Conventions of the embedding:
    - a Python [str] is its list of Unicode code points ([pystr]);
    - a Python [int] is a [Z];
    - a Python [float] is read as the exact rational it denotes ([Q]):
      decimal literals such as [0.3] stand for [3/10], and [+], [*], [/]
      are the exact operations;
    - a call either returns or raises ([outcome]);
    - NumPy's global generator is an abstract stream of variates (class
      [Generator]) behind wrappers that perform NumPy's argument checks.
      The wrappers also record each request with the variates it returned
      in a history, so that what a sampler asked for can be stated. *)

From Stdlib Require Import ZArith QArith Qabs Qminmax Lqa List String Ascii Lia.
From Stdlib Require Import DecimalString DecimalPos DecimalZ.
From stdpp Require Import base decidable option list gmap.

Local Open Scope Z_scope.

(** ** Python values *)

(** A [str], as the sequence of its code points. *)
Abbreviation pystr := (list Z).

(** A literal of the source, character by character. *)
Definition lit (s : string) : pystr :=
  map (fun a => Z.of_nat (nat_of_ascii a)) (list_ascii_of_string s).

(** The exceptions the modelled code can meet. *)
Inductive exn : Type :=
| ValueError
| KeyError
| ZeroDivisionError.

(** A call returns a value or raises. *)
Inductive outcome (A : Type) : Type :=
| Return (a : A)
| Raise (e : exn).

Arguments Return {A} a.
Arguments Raise {A} e.

Definition returns {A} (o : outcome A) : Prop := ∃ a, o = Return a.
Definition raises {A} (o : outcome A) : Prop := ∃ e, o = Raise e.

(** [chr(n)]: the one-character string of code point [n]; [ValueError]
    outside [range(0x110000)]. *)
Definition chr (n : Z) : outcome pystr :=
  if (0 <=? n) && (n <? 1114112) then Return [n] else Raise ValueError.

(** [str(n)] for an [int], as used by an f-string. *)
Definition str_of_int (n : Z) : pystr :=
  lit (NilZero.string_of_int (Z.to_int n)).

(** [c.isspace()] for a single character (Unicode white space). *)
Definition isspace (c : Z) : bool :=
  ((9 <=? c) && (c <=? 13)) || ((28 <=? c) && (c <=? 32))
  || (c =? 133) || (c =? 160) || (c =? 5760)
  || ((8192 <=? c) && (c <=? 8202))
  || (c =? 8232) || (c =? 8233) || (c =? 8239) || (c =? 8287) || (c =? 12288).

Fixpoint lstrip (s : pystr) : pystr :=
  match s with
  | c :: s' => if isspace c then lstrip s' else s
  | [] => []
  end.

(** [s.strip()] *)
Definition strip (s : pystr) : pystr := rev (lstrip (rev (lstrip s))).

(** [s.endswith(t)] *)
Definition endswith (s t : pystr) : bool :=
  bool_decide (drop (length s - length t)%nat s = t).

(** The metric column holds floats, integers or labels. *)
Inductive metric_value : Type :=
| MFloat (x : Q)
| MInt (n : Z)
| MStr (s : pystr).

(** One record of the data frame: [{'user_id': _, 'group': _, 'metric': _}]. *)
Record row : Type := Row {
  user_id : Z;
  group : pystr;
  metric : metric_value
}.

(** [pd.DataFrame(data)] for a list of records keeps them in order. *)
Abbreviation DataFrame := (list row).

(** ** The preset catalog *)

Record preset : Type := Preset {
  metric_type : pystr;
  distribution : pystr;
  variance : pystr;
  paths : Z;
  samples : Z;
  description : pystr;
  expected_test : pystr
}.

Definition mk_preset (m d v : string) (p s : Z) (desc test : string) : preset :=
  Preset (lit m) (lit d) (lit v) p s (lit desc) (lit test).

Definition presets : gmap Z preset :=
  list_to_map [
    (1, mk_preset "Continuous" "Normal" "Equal" 2 1000 "t-test" "t-test");
    (2, mk_preset "Continuous" "Normal" "Unequal" 2 1000 "Welch's t-test" "Welch's t-test");
    (3, mk_preset "Continuous" "Skewed" "Equal" 2 1000 "Mann-Whitney" "Mann-Whitney");
    (4, mk_preset "Continuous" "Skewed" "Unequal" 2 1000 "Mann-Whitney" "Mann-Whitney");
    (5, mk_preset "Continuous" "Normal" "Equal" 4 1000 "ANOVA" "ANOVA");
    (6, mk_preset "Continuous" "Normal" "Unequal" 4 1000 "Welch's ANOVA" "Welch's ANOVA");
    (7, mk_preset "Continuous" "Skewed" "Equal" 4 1000 "Kruskal-Wallis" "Kruskal-Wallis");
    (8, mk_preset "Continuous" "Skewed" "Unequal" 4 1000 "Kruskal-Wallis" "Kruskal-Wallis");
    (9, mk_preset "Proportion" "Binary" "-" 2 1000 "Two-Proportion Z-Test" "Two-Proportion Z-Test");
    (10, mk_preset "Proportion" "Binary" "-" 4 1000 "Chi-Square" "Chi-Square");
    (11, mk_preset "Categorical" "Uniform" "-" 2 1000 "Chi-Square" "Chi-Square");
    (12, mk_preset "Categorical" "Uniform" "-" 4 1000 "Chi-Square" "Chi-Square");
    (13, mk_preset "Continuous" "Normal" "Equal" 2 1000 "t-test (duplicate)" "t-test (duplicate)");
    (14, mk_preset "Continuous" "Skewed" "Unequal" 2 1000
           "Mann-Whitney (duplicate)" "Mann-Whitney (duplicate)");
    (15, mk_preset "Proportion" "Binary" "-" 2 1000
           "Two-Proportion Z-Test (duplicate)" "Two-Proportion Z-Test (duplicate)");
    (16, mk_preset "Proportion" "Binary" "-" 4 1000
           "Chi-Square (duplicate)" "Chi-Square (duplicate)");
    (17, mk_preset "Continuous" "Normal" "Equal" 4 1000
           "ANOVA (confirm variance handling)" "ANOVA (confirm variance handling)");
    (18, mk_preset "Continuous" "Skewed" "Unequal" 4 1000
           "Kruskal-Wallis (reconfirm skew+variance)"
           "Kruskal-Wallis (reconfirm skew+variance)");
    (19, mk_preset "Proportion" "Binary" "-" 4 1000
           "Chi-Square (retest large groups)" "Chi-Square (retest large groups)");
    (20, mk_preset "Categorical" "Uniform" "-" 4 1000
           "Chi-Square (multi-level categorical)" "Chi-Square (multi-level categorical)")
  ].

(** [d[k]] on a dict: [KeyError] for a missing key. *)
Definition getitem {V} (d : gmap Z V) (k : Z) : outcome V :=
  match d !! k with
  | Some v => Return v
  | None => Raise KeyError
  end.

(** [k in d] *)
Definition contains {V} (d : gmap Z V) (k : Z) : bool :=
  bool_decide (is_Some (d !! k)).

(** ** Session state

    The attributes of [st.session_state] the program writes; an attribute
    that was never assigned is [None]. *)

Record session_state : Type := SessionState {
  ss_current_scenario : option Z;
  ss_num_paths : option Z;
  ss_metric_type : option pystr;
  ss_sample_size_per_path : option Z;
  ss_file_name : option pystr;
  ss_distribution_shape : option pystr;
  ss_variance_condition : option pystr
}.

Definition empty_session : session_state :=
  SessionState None None None None None None None.

(** The assignments [st.session_state.<attribute> = value]. *)
Definition set_current_scenario (v : Z) (st : session_state) : session_state :=
  SessionState (Some v) (ss_num_paths st) (ss_metric_type st)
    (ss_sample_size_per_path st) (ss_file_name st)
    (ss_distribution_shape st) (ss_variance_condition st).

Definition set_num_paths (v : Z) (st : session_state) : session_state :=
  SessionState (ss_current_scenario st) (Some v) (ss_metric_type st)
    (ss_sample_size_per_path st) (ss_file_name st)
    (ss_distribution_shape st) (ss_variance_condition st).

Definition set_metric_type (v : pystr) (st : session_state) : session_state :=
  SessionState (ss_current_scenario st) (ss_num_paths st) (Some v)
    (ss_sample_size_per_path st) (ss_file_name st)
    (ss_distribution_shape st) (ss_variance_condition st).

Definition set_sample_size_per_path (v : Z) (st : session_state) : session_state :=
  SessionState (ss_current_scenario st) (ss_num_paths st) (ss_metric_type st)
    (Some v) (ss_file_name st)
    (ss_distribution_shape st) (ss_variance_condition st).

Definition set_file_name (v : pystr) (st : session_state) : session_state :=
  SessionState (ss_current_scenario st) (ss_num_paths st) (ss_metric_type st)
    (ss_sample_size_per_path st) (Some v)
    (ss_distribution_shape st) (ss_variance_condition st).

Definition set_distribution_shape (v : pystr) (st : session_state) : session_state :=
  SessionState (ss_current_scenario st) (ss_num_paths st) (ss_metric_type st)
    (ss_sample_size_per_path st) (ss_file_name st)
    (Some v) (ss_variance_condition st).

Definition set_variance_condition (v : pystr) (st : session_state) : session_state :=
  SessionState (ss_current_scenario st) (ss_num_paths st) (ss_metric_type st)
    (ss_sample_size_per_path st) (ss_file_name st)
    (ss_distribution_shape st) (Some v).

(** [load_scenario(scenario_num)]: load a preset into the session state. *)
Definition load_scenario (scenario_num : Z) (st : session_state)
  : outcome session_state :=
  if contains presets scenario_num then
    match getitem presets scenario_num with
    | Raise e => Raise e
    | Return preset =>
      let st := set_current_scenario scenario_num st in
      let st := set_num_paths (paths preset) st in
      let st := set_metric_type (metric_type preset) st in
      let st := set_sample_size_per_path (samples preset) st in
      let st :=
        set_file_name
          (lit "test inputs/scenario" ++ str_of_int scenario_num ++ lit ".csv") st in
      (* Only set distribution and variance for continuous data *)
      if bool_decide (metric_type preset = lit "Continuous") then
        let st := set_distribution_shape (distribution preset) st in
        let st := set_variance_condition (variance preset) st in
        Return st
      else Return st
    end
  else Return st.

(** ** NumPy's random module *)

(** A request to [np.random], with its arguments. *)
Inductive request : Type :=
| ReqNormal (loc scale : Q) (size : Z)
| ReqGamma (shape scale : Q) (size : Z)
| ReqBinomial (n : Z) (p : Q) (size : Z)
| ReqChoice (a : list pystr) (size : Z) (p : list Q).

(** The source of variates behind [np.random]: one variate per step.
    Binomial variates lie in [0..n]; a categorical variate is an index
    into the probability vector. *)
Class Generator (G : Type) : Type := {
  variate_normal : Q → Q → G → Q * G;
  variate_gamma : Q → Q → G → Q * G;
  variate_binomial : Z → Q → G → Z * G;
  variate_index : list Q → G → nat * G;
  variate_binomial_range n p g :
    0 <= n → 0 <= fst (variate_binomial n p g) <= n;
  variate_index_range p g :
    p ≠ [] → (fst (variate_index p g) < length p)%nat
}.

(** A deterministic instance: the state is a counter. *)
Definition counter_normal (loc scale : Q) (g : Z) : Q * Z :=
  ((loc + scale * (inject_Z (g mod 3) - 1))%Q, g + 1).

Definition counter_gamma (shape scale : Q) (g : Z) : Q * Z :=
  ((shape * scale + inject_Z (g mod 2))%Q, g + 1).

Definition counter_binomial (n : Z) (p : Q) (g : Z) : Z * Z :=
  (Z.min n (g mod 2), g + 1).

Definition counter_index (p : list Q) (g : Z) : nat * Z :=
  (Z.to_nat (g mod Z.of_nat (length p)), g + 1).

#[export] Program Instance counter_generator : Generator Z := {|
  variate_normal := counter_normal;
  variate_gamma := counter_gamma;
  variate_binomial := counter_binomial;
  variate_index := counter_index
|}.
Next Obligation.
  intros n p g Hn. simpl.
  pose proof (Z.mod_pos_bound g 2). lia.
Qed.
Next Obligation.
  intros p g Hp. simpl.
  assert (0 < Z.of_nat (length p)) by (destruct p; [done | simpl; lia]).
  pose proof (Z.mod_pos_bound g (Z.of_nat (length p))). lia.
Qed.

(** [sum(xs)] of floats, left to right from [0]. *)
Definition sum (xs : list Q) : Q := fold_left Qplus xs 0%Q.

(** The tolerance of [np.random.choice] on the sum of [p]:
    the square root of the float64 machine epsilon, [2^-26]. *)
Definition choice_atol : Q := (1 # 67108864)%Q.

Section Numpy.
Context {G : Type} `{!Generator G}.

(** The module state: the generator and (ghost) the requests served so
    far, each with the array it returned. *)
Record np_random : Type := NpRandom {
  bit_generator : G;
  history : list (request * list metric_value)
}.

(** Code that uses [np.random]: it threads the module state and may raise. *)
Definition py (A : Type) : Type := np_random → outcome (A * np_random).

Definition ret {A} (a : A) : py A := fun st => Return (a, st).

Definition bind {A B} (m : py A) (k : A → py B) : py B := fun st =>
  match m st with
  | Return (a, st') => k a st'
  | Raise e => Raise e
  end.

Definition lift {A} (o : outcome A) : py A := fun st =>
  match o with
  | Return a => Return (a, st)
  | Raise e => Raise e
  end.

(** [n] successive variates. *)
Fixpoint variates {A} (next : G → A * G) (n : nat) (g : G) : list A * G :=
  match n with
  | O => ([], g)
  | S n' =>
    let '(x, g') := next g in
    let '(xs, g'') := variates next n' g' in
    (x :: xs, g'')
  end.

(** Serve a request whose arguments passed the checks. *)
Definition serve {A} (req : request) (next : G → A * G) (wrap : A → metric_value)
    (size : Z) : py (list metric_value) := fun st =>
  let '(xs, g') := variates next (Z.to_nat size) (bit_generator st) in
  let values := map wrap xs in
  Return (values, NpRandom g' (history st ++ [(req, values)])).

(** [np.random.normal(loc, scale, size)] *)
Definition np_random_normal (loc scale : Q) (size : Z) : py (list metric_value) :=
  if (size <? 0) || negb (Qle_bool 0 scale) then lift (Raise ValueError)
  else serve (ReqNormal loc scale size) (variate_normal loc scale) MFloat size.

(** [np.random.gamma(shape, scale, size)] *)
Definition np_random_gamma (shape scale : Q) (size : Z) : py (list metric_value) :=
  if (size <? 0) || negb (Qle_bool 0 shape) || negb (Qle_bool 0 scale)
  then lift (Raise ValueError)
  else serve (ReqGamma shape scale size) (variate_gamma shape scale) MFloat size.

(** [np.random.binomial(n, p, size)] *)
Definition np_random_binomial (n : Z) (p : Q) (size : Z) : py (list metric_value) :=
  if (size <? 0) || (n <? 0) || negb (Qle_bool 0 p) || negb (Qle_bool p 1)
  then lift (Raise ValueError)
  else serve (ReqBinomial n p size) (variate_binomial n p) MInt size.

(** [np.random.choice(a, size, p)] *)
Definition np_random_choice (a : list pystr) (size : Z) (p : list Q)
  : py (list metric_value) :=
  if (size <? 0)
     || negb (length p =? length a)%nat
     || negb (forallb (Qle_bool 0) p)
     || negb (Qle_bool (Qabs (sum p - 1)) choice_atol)
     || (bool_decide (a = []) && negb (size =? 0))
  then lift (Raise ValueError)
  else serve (ReqChoice a size p) (variate_index p)
             (fun k => MStr (nth k a [])) size.

End Numpy.

Arguments np_random G : clear implicits.
Arguments py G A : clear implicits.

Notation "'let*' x ':=' m 'in' k" := (bind m (fun x => k))
  (at level 10, x name, m at level 100, k at level 200).

(** ** The samplers *)

(** [min(a, b)]: the first argument unless the second is smaller. *)
Definition min2 (a b : Q) : Q := if Qle_bool a b then a else b.

(** [a / b] on floats *)
Definition truediv (a b : Q) : outcome Q :=
  if Qeq_bool b 0 then Raise ZeroDivisionError else Return (a / b)%Q.

(** A list comprehension whose element expression may raise. *)
Fixpoint comprehension {A B} (f : A → outcome B) (xs : list A) : outcome (list B) :=
  match xs with
  | [] => Return []
  | x :: xs' =>
    match f x with
    | Raise e => Raise e
    | Return y =>
      match comprehension f xs' with
      | Raise e => Raise e
      | Return ys => Return (y :: ys)
      end
    end
  end.

(** [f"{group_prefix} {chr(65 + i)}"] *)
Definition group_label (group_prefix : pystr) (i : Z) : outcome pystr :=
  match chr (65 + i) with
  | Return letter => Return (group_prefix ++ lit " " ++ letter)
  | Raise e => Raise e
  end.

(** The record loop shared by the samplers:
    [for value in values: data.append({...}); user_id_counter += 1],
    on the pair of locals [(data, user_id_counter)]. *)
Definition append_records (group_name : pystr) (values : list metric_value)
    (locals : DataFrame * Z) : DataFrame * Z :=
  fold_left
    (fun '(data, user_id_counter) value =>
       (data ++ [Row user_id_counter group_name value], user_id_counter + 1))
    values locals.

Definition categories : list pystr :=
  [lit "Red"; lit "Blue"; lit "Green"; lit "Yellow"; lit "Purple"; lit "Orange"].

(** The weights chosen by the [if]/[elif] chain of the categorical sampler. *)
Definition category_weights (i : Z) : list Q :=
  if i =? 0 then [0.4; 0.3; 0.2; 0.1; 0.0; 0.0]%Q
  else if i =? 1 then [0.1; 0.2; 0.4; 0.3; 0.0; 0.0]%Q
  else if i =? 2 then [0.0; 0.1; 0.2; 0.3; 0.4; 0.0]%Q
  else [0.1; 0.1; 0.1; 0.1; 0.3; 0.3]%Q.

(** [weights[:min(len(categories), 6)]] followed by
    [[w / sum(weights) for w in weights]]. *)
Definition normalize_weights (weights : list Q) : outcome (list Q) :=
  let weights := take (Z.to_nat (Z.min (Z.of_nat (length categories)) 6)) weights in
  comprehension (fun w => truediv w (sum weights)) weights.

Section Samplers.
Context {G : Type} `{!Generator G}.

(** [for i in range(n)] over the loop's locals. *)
Fixpoint for_range_from {T} (i : Z) (n : nat) (body : Z → T → py G T) (locals : T)
  : py G T :=
  match n with
  | O => ret locals
  | S n' => let* locals' := body i locals in for_range_from (i + 1) n' body locals'
  end.

Definition for_range {T} (n : Z) (body : Z → T → py G T) (locals : T) : py G T :=
  for_range_from 0 (Z.to_nat n) body locals.

(** [generate_continuous_data]: the shape and variance arguments are a
    [str] or [None]. *)
Definition generate_continuous_data (num_paths sample_size_per_path : Z)
    (distribution_shape variance_condition : option pystr) (group_prefix : pystr)
  : py G DataFrame :=
  let* locals :=
    for_range num_paths
      (fun i '(data, user_id_counter) =>
         let* group_name := lift (group_label group_prefix i) in
         let* values :=
           if bool_decide (distribution_shape = Some (lit "Normal")) then
             if bool_decide (variance_condition = Some (lit "Equal")) then
               np_random_normal 50 10 sample_size_per_path
             else
               let base_mean := 50 + i * 10 in
               let base_std := 10 + i * 5 in
               np_random_normal (inject_Z base_mean) (inject_Z base_std)
                                sample_size_per_path
           else
             if bool_decide (variance_condition = Some (lit "Equal")) then
               np_random_gamma 2 10 sample_size_per_path
             else
               let shape := (2 + inject_Z i * 0.5)%Q in
               let scale := 10 + i * 5 in
               np_random_gamma shape (inject_Z scale) sample_size_per_path
         in
         ret (append_records group_name values (data, user_id_counter)))
      ([], 1)
  in ret (fst locals).

(** [generate_proportion_data] *)
Definition generate_proportion_data (num_paths sample_size_per_path : Z)
    (group_prefix : pystr) : py G DataFrame :=
  let* locals :=
    for_range num_paths
      (fun i '(data, user_id_counter) =>
         let* group_name := lift (group_label group_prefix i) in
         let probability := (0.3 + inject_Z i * 0.2)%Q in
         let probability := min2 probability 0.9 in
         let* values := np_random_binomial 1 probability sample_size_per_path in
         ret (append_records group_name values (data, user_id_counter)))
      ([], 1)
  in ret (fst locals).

(** [generate_categorical_data] *)
Definition generate_categorical_data (num_paths sample_size_per_path : Z)
    (group_prefix : pystr) : py G DataFrame :=
  let* locals :=
    for_range num_paths
      (fun i '(data, user_id_counter) =>
         let* group_name := lift (group_label group_prefix i) in
         let weights := category_weights i in
         let* weights := lift (normalize_weights weights) in
         let* values :=
           np_random_choice (take (length weights) categories)
                            sample_size_per_path weights in
         ret (append_records group_name values (data, user_id_counter)))
      ([], 1)
  in ret (fst locals).

End Samplers.

(** ** Validation and the generate step of [main] *)

(** [validate_inputs]: the list of error messages, empty when all is well. *)
Definition validate_inputs (num_paths sample_size_per_path : Z)
    (group_prefix file_name : pystr) : list pystr :=
  let errors := [] in
  let errors :=
    if num_paths <=? 0
    then errors ++ [lit "Number of Paths must be greater than 0"] else errors in
  let errors :=
    if sample_size_per_path <=? 0
    then errors ++ [lit "Sample Size Per Path must be greater than 0"] else errors in
  let errors :=
    if bool_decide (strip group_prefix = [])
    then errors ++ [lit "Group Label Prefix cannot be empty"] else errors in
  let errors :=
    if bool_decide (strip file_name = [])
    then errors ++ [lit "File Name cannot be empty"]
    else if negb (endswith file_name (lit ".csv"))
    then errors ++ [lit "File Name must end with .csv"] else errors in
  errors.

(** What pressing the generate button yields: the validation errors that
    were displayed, or the data frame that was generated. *)
Inductive generation : Type :=
| Rejected (errors : list pystr)
| Generated (df : DataFrame).

Section Main.
Context {G : Type} `{!Generator G}.

(** The body of [if st.button("Generate Synthetic Data")] in [main], up
    to the data frame: validate, then dispatch on the metric type. *)
Definition main_generate (num_paths sample_size_per_path : Z) (metric_type : pystr)
    (distribution_shape variance_condition : option pystr)
    (group_prefix file_name : pystr) : py G generation :=
  let errors := validate_inputs num_paths sample_size_per_path group_prefix file_name in
  if negb (bool_decide (errors = [])) then ret (Rejected errors)
  else
    let* df :=
      if bool_decide (metric_type = lit "Continuous") then
        generate_continuous_data num_paths sample_size_per_path
                                 distribution_shape variance_condition group_prefix
      else if bool_decide (metric_type = lit "Proportion") then
        generate_proportion_data num_paths sample_size_per_path group_prefix
      else
        generate_categorical_data num_paths sample_size_per_path group_prefix
    in ret (Generated df).

End Main.

(** ** Vocabulary of the specification *)

(** A row of the preset table of the specification (section 4.1):
    id, metricType, distributionShape, varianceCondition (a dash in the
    table is [None]), numGroups, expectedTest. The sample size is 1000
    in every row. *)
Record table_row : Type := TableRow {
  t_id : Z;
  t_metricType : string;
  t_distributionShape : string;
  t_varianceCondition : option string;
  t_numGroups : Z;
  t_expectedTest : string
}.

Definition spec_table : list table_row := [
  TableRow 1 "Continuous" "Normal" (Some "Equal"%string) 2 "t-test";
  TableRow 2 "Continuous" "Normal" (Some "Unequal"%string) 2 "Welch's t-test";
  TableRow 3 "Continuous" "Skewed" (Some "Equal"%string) 2 "Mann-Whitney";
  TableRow 4 "Continuous" "Skewed" (Some "Unequal"%string) 2 "Mann-Whitney";
  TableRow 5 "Continuous" "Normal" (Some "Equal"%string) 4 "ANOVA";
  TableRow 6 "Continuous" "Normal" (Some "Unequal"%string) 4 "Welch's ANOVA";
  TableRow 7 "Continuous" "Skewed" (Some "Equal"%string) 4 "Kruskal-Wallis";
  TableRow 8 "Continuous" "Skewed" (Some "Unequal"%string) 4 "Kruskal-Wallis";
  TableRow 9 "Proportion" "Binary" None 2 "Two-Proportion Z-Test";
  TableRow 10 "Proportion" "Binary" None 4 "Chi-Square";
  TableRow 11 "Categorical" "Uniform" None 2 "Chi-Square";
  TableRow 12 "Categorical" "Uniform" None 4 "Chi-Square"
].

(** The variance cell of a catalog entry: the placeholder ["-"] of the
    source is the dash of the table. *)
Definition variance_cell (v : pystr) : option pystr :=
  if bool_decide (v = lit "-") then None else Some v.

(** A catalog entry carries exactly the fields of a table row. *)
Definition matches_row (p : preset) (r : table_row) : Prop :=
  metric_type p = lit (t_metricType r)
  ∧ distribution p = lit (t_distributionShape r)
  ∧ variance_cell (variance p) = lit <$> t_varianceCondition r
  ∧ paths p = t_numGroups r
  ∧ samples p = 1000
  ∧ expected_test p = lit (t_expectedTest r).

(** Two catalog entries describe the same configuration. *)
Definition same_configuration (p q : preset) : Prop :=
  metric_type p = metric_type q
  ∧ distribution p = distribution q
  ∧ variance p = variance q
  ∧ paths p = paths q
  ∧ samples p = samples q.

(** The pairs (duplicate, original) as the specification lists them. *)
Definition spec_duplicates : list (Z * Z) :=
  [(13, 1); (14, 4); (15, 9); (16, 10); (17, 5); (18, 7); (19, 10); (20, 12)].

(** The pairs (duplicate, original) found in the catalog. *)
Definition catalog_duplicates : list (Z * Z) :=
  [(13, 1); (14, 4); (15, 9); (16, 10); (17, 5); (18, 8); (19, 10); (20, 12)].

Definition duplicates (pair : Z * Z) : Prop :=
  ∃ p q, presets !! pair.1 = Some p ∧ presets !! pair.2 = Some q
         ∧ same_configuration p q.

(** The invariant of the data model on a loaded configuration: shape and
    variance are defined exactly when the metric type is Continuous. *)
Definition shape_variance_invariant (st : session_state) : Prop :=
  (is_Some (ss_distribution_shape st) ↔ ss_metric_type st = Some (lit "Continuous"))
  ∧ (is_Some (ss_variance_condition st) ↔ ss_metric_type st = Some (lit "Continuous")).

(** The label of group [i], when [chr] accepts its letter. *)
Definition label (group_prefix : pystr) (i : Z) : pystr :=
  group_prefix ++ lit " " ++ [65 + i].

(** The records of one group: its values in order, with consecutive ids. *)
Fixpoint records (group_name : pystr) (first_id : Z) (values : list metric_value)
  : list row :=
  match values with
  | [] => []
  | value :: values' =>
    Row first_id group_name value :: records group_name (first_id + 1) values'
  end.

(** The blocks of successive groups, from group [i] and id [first_id]. *)
Fixpoint blocks (group_prefix : pystr) (i first_id : Z)
    (arrays : list (list metric_value)) : list row :=
  match arrays with
  | [] => []
  | values :: arrays' =>
    records (label group_prefix i) first_id values
    ++ blocks group_prefix (i + 1) (first_id + Z.of_nat (length values)) arrays'
  end.

(** The shape of a data set: [num_paths * size] rows, ids [1..], and one
    contiguous block of [size] rows per group, in group-index order. *)
Definition well_formed (num_paths size : Z) (group_prefix : pystr) (df : DataFrame)
  : Prop :=
  Z.of_nat (length df) = num_paths * size
  ∧ user_id <$> df = seqZ 1 (num_paths * size)
  ∧ group <$> df
    = concat ((λ i, replicate (Z.to_nat size) (label group_prefix i))
              <$> seqZ 0 num_paths).

Inductive DistributionShape : Type := Normal | Skewed.
Inductive VarianceCondition : Type := Equal | Unequal.

(** The argument strings of the two settings. *)
Definition shape_arg (s : DistributionShape) : option pystr :=
  Some (lit match s with Normal => "Normal" | Skewed => "Skewed" end).

Definition variance_arg (v : VarianceCondition) : option pystr :=
  Some (lit match v with Equal => "Equal" | Unequal => "Unequal" end).

(** The distributions the specification names. *)
Inductive law : Type :=
| NormalLaw (mean stdDev : Q)
| GammaLaw (shape scale : Q)
| BernoulliLaw (p : Q)
| CategoricalLaw (labels : list pystr) (weights : list Q).

(** Section 4.3: the distribution of group [i]. *)
Definition continuous_law (s : DistributionShape) (v : VarianceCondition) (i : Z) : law :=
  match s, v with
  | Normal, Equal => NormalLaw 50 10
  | Normal, Unequal => NormalLaw (50 + 10 * inject_Z i) (10 + 5 * inject_Z i)
  | Skewed, Equal => GammaLaw 2 10
  | Skewed, Unequal => GammaLaw (2 + 0.5 * inject_Z i) (10 + 5 * inject_Z i)
  end%Q.

(** Section 4.4: the success probability of group [i]. *)
Definition spec_probability (i : Z) : Q := Qmin (0.3 + 0.2 * inject_Z i) 0.9.

(** Section 4.5: the category universe and the weights of group [i]. *)
Definition spec_categories : list pystr :=
  lit <$> ["Red"; "Blue"; "Green"; "Yellow"; "Purple"; "Orange"]%string.

Definition spec_weights (i : Z) : list Q :=
  match i with
  | 0 => [0.4; 0.3; 0.2; 0.1; 0.0; 0.0]%Q
  | 1 => [0.1; 0.2; 0.4; 0.3; 0.0; 0.0]%Q
  | 2 => [0.0; 0.1; 0.2; 0.3; 0.4; 0.0]%Q
  | _ => [0.1; 0.1; 0.1; 0.1; 0.3; 0.3]%Q
  end.

(** A request asks for [size] draws from a law. *)
Definition asks_for (req : request) (l : law) (size : Z) : Prop :=
  match req, l with
  | ReqNormal loc scale n, NormalLaw mean stdDev =>
    loc == mean ∧ scale == stdDev ∧ n = size
  | ReqGamma shape scale n, GammaLaw shape' scale' =>
    shape == shape' ∧ scale == scale' ∧ n = size
  | ReqBinomial trials p n, BernoulliLaw p' =>
    trials = 1 ∧ p == p' ∧ n = size
  | ReqChoice a n p, CategoricalLaw labels weights =>
    a = labels ∧ Forall2 Qeq p weights ∧ n = size
  | _, _ => False
  end.

(** During a call that took [np.random] from [before] to [after] and
    returned [df], group [i] (for [i] in [range(num_paths)], in order) made
    one request, for [size] draws from [laws i]; it received [size] values,
    each satisfying [good], and the metric column is these values as they
    came. *)
Definition groups_draw {G} (laws : Z → law) (good : metric_value → Prop)
    (num_paths size : Z) (before after : np_random G) (df : DataFrame) : Prop :=
  ∃ served : list (request * list metric_value),
    history after = history before ++ served
    ∧ Forall2 (λ i call, asks_for call.1 (laws i) size
                         ∧ length call.2 = Z.to_nat size
                         ∧ Forall good call.2)
              (seqZ 0 num_paths) served
    ∧ metric <$> df = concat (served.*2).

Definition is_float (v : metric_value) : Prop := ∃ x, v = MFloat x.
Definition is_bit (v : metric_value) : Prop := v = MInt 0 ∨ v = MInt 1.
Definition is_category (v : metric_value) : Prop := ∃ c, v = MStr c ∧ c ∈ spec_categories.

(** The body of the group loop, with the draw of group [i] left open. *)
Definition group_body {G} `{!Generator G} (draw : Z → py G (list metric_value))
    (group_prefix : pystr) (i : Z) (locals : DataFrame * Z) : py G (DataFrame * Z) :=
  let* group_name := lift (group_label group_prefix i) in
  let* values := draw i in
  ret (append_records group_name values locals).

(** The draws of the three samplers. *)
Definition continuous_draw {G} `{!Generator G} (size : Z)
    (distribution_shape variance_condition : option pystr) (i : Z)
  : py G (list metric_value) :=
  if bool_decide (distribution_shape = Some (lit "Normal")) then
    if bool_decide (variance_condition = Some (lit "Equal")) then
      np_random_normal 50 10 size
    else np_random_normal (inject_Z (50 + i * 10)) (inject_Z (10 + i * 5)) size
  else
    if bool_decide (variance_condition = Some (lit "Equal")) then
      np_random_gamma 2 10 size
    else np_random_gamma (2 + inject_Z i * 0.5)%Q (inject_Z (10 + i * 5)) size.

Definition proportion_draw {G} `{!Generator G} (size : Z) (i : Z)
  : py G (list metric_value) :=
  np_random_binomial 1 (min2 (0.3 + inject_Z i * 0.2)%Q 0.9) size.

Definition categorical_draw {G} `{!Generator G} (size : Z) (i : Z)
  : py G (list metric_value) :=
  let* weights := lift (normalize_weights (category_weights i)) in
  np_random_choice (take (length weights) categories) size weights.

(** A sampler seen through its draw: the group loop from no data and id
    1, then the data frame. *)
Definition group_loop {G} `{!Generator G} (draw : Z → py G (list metric_value))
    (group_prefix : pystr) (num_paths : Z) : py G DataFrame := fun st =>
  match for_range_from 0 (Z.to_nat num_paths) (group_body draw group_prefix) ([], 1) st with
  | Return (locals, st') => Return (locals.1, st')
  | Raise e => Raise e
  end.

(** A first state of [np.random] over the counter generator. *)
Definition fresh : np_random Z := NpRandom 0 [].

(** The branch the continuous sampler takes on its two string arguments. *)
Definition branch_shape (distribution_shape : option pystr) : DistributionShape :=
  if bool_decide (distribution_shape = Some (lit "Normal")) then Normal else Skewed.

Definition branch_variance (variance_condition : option pystr) : VarianceCondition :=
  if bool_decide (variance_condition = Some (lit "Equal")) then Equal else Unequal.

(** The largest number of groups for which every letter [chr(65 + i)] exists. *)
Definition max_paths : Z := 1114047.

(** ** The rest of [main] *)

(** [xs.index(x)]: the position of the first occurrence, [ValueError]
    when there is none. *)
Fixpoint list_index {A} `{EqDecision A} (xs : list A) (x : A) : outcome Z :=
  match xs with
  | [] => Raise ValueError
  | y :: xs' =>
    if decide (y = x) then Return 0
    else match list_index xs' x with
         | Return k => Return (k + 1)
         | Raise e => Raise e
         end
  end.

(** The [index=] arguments of the four select boxes of [main]; the
    attribute is read with [st.session_state.get(key, default)]. *)
Definition num_paths_index (st : session_state) : outcome Z :=
  list_index [2; 4] (default 2 (ss_num_paths st)).

Definition metric_type_index (st : session_state) : outcome Z :=
  list_index [lit "Continuous"; lit "Proportion"; lit "Categorical"]
             (default (lit "Continuous") (ss_metric_type st)).

Definition distribution_shape_index (st : session_state) : outcome Z :=
  list_index [lit "Normal"; lit "Skewed"]
             (default (lit "Normal") (ss_distribution_shape st)).

Definition variance_condition_index (st : session_state) : outcome Z :=
  list_index [lit "Equal"; lit "Unequal"]
             (default (lit "Equal") (ss_variance_condition st)).

(** The lookup of the side bar:
    [if st.session_state.current_scenario is not None:
       preset = presets[scenario_num]]. *)
Definition sidebar_preset (st : session_state) : outcome (option preset) :=
  match ss_current_scenario st with
  | None => Return None
  | Some scenario_num =>
    match getitem presets scenario_num with
    | Return preset => Return (Some preset)
    | Raise e => Raise e
    end
  end.

(** The script gets past the side bar and the four select boxes. *)
Definition form_renders (st : session_state) : Prop :=
  returns (sidebar_preset st)
  ∧ returns (num_paths_index st)
  ∧ returns (metric_type_index st)
  ∧ returns (distribution_shape_index st)
  ∧ returns (variance_condition_index st).

(** Pressing scenario buttons one after the other. *)
Fixpoint load_scenarios (ids : list Z) (st : session_state) : outcome session_state :=
  match ids with
  | [] => Return st
  | scenario_num :: ids' =>
    match load_scenario scenario_num st with
    | Return st' => load_scenarios ids' st'
    | Raise e => Raise e
    end
  end.

(** The file name [load_scenario] gives to scenario [k]. *)
Definition scenario_file_name (k : Z) : pystr :=
  lit "test inputs/scenario" ++ str_of_int k ++ lit ".csv".

(** The kind of metric each branch of the dispatch produces. *)
Definition metric_kind (metric_type : pystr) (v : metric_value) : Prop :=
  if bool_decide (metric_type = lit "Continuous") then is_float v
  else if bool_decide (metric_type = lit "Proportion") then is_bit v
  else is_category v.

(** The success probability of group [i], with the cap written out. *)
Definition capped_probability (i : Z) : Q :=
  if i <? 3 then (0.3 + 0.2 * inject_Z i)%Q else 0.9%Q.

(** One of the three samplers, called with these arguments in state
    [before], returned [df] and left [after]. *)
Definition sampled {G} `{!Generator G} (num_paths size : Z) (group_prefix : pystr)
    (before after : np_random G) (df : DataFrame) : Prop :=
  (∃ shape var, generate_continuous_data num_paths size shape var group_prefix before
                = Return (df, after))
  ∨ generate_proportion_data num_paths size group_prefix before = Return (df, after)
  ∨ generate_categorical_data num_paths size group_prefix before = Return (df, after).

(** * Verified properties *)

(** ** The model on small inputs *)

Example group_label_A : group_label (lit "Group") 0 = Return (lit "Group A").
Proof. reflexivity. Qed.

Example group_label_D : group_label (lit "Group") 3 = Return (lit "Group D").
Proof. reflexivity. Qed.

Example strip_blank : strip (lit "  ") = [] ∧ strip (lit " a b ") = lit "a b".
Proof. split; reflexivity. Qed.

Example validate_inputs_all_wrong :
  validate_inputs 0 0 (lit " ") (lit "data.txt")
  = [lit "Number of Paths must be greater than 0";
     lit "Sample Size Per Path must be greater than 0";
     lit "Group Label Prefix cannot be empty";
     lit "File Name must end with .csv"].
Proof. reflexivity. Qed.

Example validate_inputs_defaults :
  validate_inputs 2 1000 (lit "Group") (lit "test inputs/synthetic_data.csv") = [].
Proof. reflexivity. Qed.

Example load_scenario_9 :
  load_scenario 9 empty_session
  = Return (SessionState (Some 9) (Some 2) (Some (lit "Proportion")) (Some 1000)
                         (Some (lit "test inputs/scenario9.csv")) None None).
Proof. vm_compute. reflexivity. Qed.

Example proportion_two_groups :
  ∃ st', generate_proportion_data 2 2 (lit "Group") fresh
         = Return ([Row 1 (lit "Group A") (MInt 0); Row 2 (lit "Group A") (MInt 1);
                    Row 3 (lit "Group B") (MInt 0); Row 4 (lit "Group B") (MInt 1)],
                   st').
Proof. eexists. vm_compute. reflexivity. Qed.

Example negative_size_is_a_ValueError :
  generate_categorical_data 2 (-1) (lit "Group") fresh = Raise ValueError.
Proof. vm_compute. reflexivity. Qed.

(** ** The catalog *)

Lemma presets_lookup_range (k : Z) : is_Some (presets !! k) ↔ 1 <= k <= 20.
Proof.
  split.
  - intros [p Hp]. unfold presets in Hp.
    apply elem_of_list_to_map_2 in Hp.
    repeat (apply elem_of_cons in Hp as [Hp | Hp]; [injection Hp as -> _; lia |]).
    by apply elem_of_nil in Hp.
  - intros Hk.
    assert (k = 1 ∨ k = 2 ∨ k = 3 ∨ k = 4 ∨ k = 5 ∨ k = 6 ∨ k = 7 ∨ k = 8 ∨ k = 9
            ∨ k = 10 ∨ k = 11 ∨ k = 12 ∨ k = 13 ∨ k = 14 ∨ k = 15 ∨ k = 16
            ∨ k = 17 ∨ k = 18 ∨ k = 19 ∨ k = 20) as Hcases by lia.
    repeat (destruct Hcases as [-> | Hcases]; [by eexists |]).
    subst k. by eexists.
Qed.

Lemma presets_Forall (P : preset → Prop) :
  Forall (λ kp, P kp.2) (map_to_list presets) →
  ∀ k p, presets !! k = Some p → P p.
Proof.
  intros HP k p Hp. rewrite Forall_forall in HP.
  apply (HP (k, p)). by apply elem_of_map_to_list.
Qed.

Lemma getitem_known {V} (d : gmap Z V) k v : d !! k = Some v → getitem d k = Return v.
Proof. unfold getitem. by intros ->. Qed.

Lemma getitem_unknown {V} (d : gmap Z V) k : d !! k = None → getitem d k = Raise KeyError.
Proof. unfold getitem. by intros ->. Qed.

Lemma contains_known {V} (d : gmap Z V) k v : d !! k = Some v → contains d k = true.
Proof. intros Hk. apply bool_decide_eq_true. by eexists. Qed.

Lemma contains_unknown {V} (d : gmap Z V) k : d !! k = None → contains d k = false.
Proof. intros Hk. apply bool_decide_eq_false. rewrite Hk. by intros [? ?]. Qed.

(** What [load_scenario] does for an id of the catalog. *)
Lemma load_scenario_known k p st :
  presets !! k = Some p →
  ∃ st', load_scenario k st = Return st'
    ∧ ss_current_scenario st' = Some k
    ∧ ss_num_paths st' = Some (paths p)
    ∧ ss_metric_type st' = Some (metric_type p)
    ∧ ss_sample_size_per_path st' = Some (samples p)
    ∧ ss_file_name st'
      = Some (lit "test inputs/scenario" ++ str_of_int k ++ lit ".csv")
    ∧ (if bool_decide (metric_type p = lit "Continuous")
       then ss_distribution_shape st' = Some (distribution p)
            ∧ ss_variance_condition st' = Some (variance p)
       else ss_distribution_shape st' = ss_distribution_shape st
            ∧ ss_variance_condition st' = ss_variance_condition st).
Proof.
  intros Hp. unfold load_scenario.
  rewrite (contains_known _ _ _ Hp), (getitem_known _ _ _ Hp).
  destruct (bool_decide (metric_type p = lit "Continuous")); by eexists.
Qed.

(** An id outside the catalog is ignored. *)
Lemma load_scenario_unknown k st :
  presets !! k = None → load_scenario k st = Return st.
Proof. intros Hk. unfold load_scenario. by rewrite (contains_unknown _ _ Hk). Qed.

(** C5: the catalog has exactly 20 entries, keyed 1 to 20; the entries 1
    to 12 carry the fields of the table of the specification, with a
    sample size of 1000; and looking up preset 5 gives Continuous, Normal,
    Equal, 4 groups, 1000 samples, expected test ANOVA. *)
Theorem catalog_matches_table :
  size presets = 20%nat
  ∧ (∀ k, is_Some (presets !! k) ↔ 1 <= k <= 20)
  ∧ t_id <$> spec_table = seqZ 1 12
  ∧ Forall (λ r, ∃ p, presets !! t_id r = Some p ∧ matches_row p r) spec_table
  ∧ ∃ p, getitem presets 5 = Return p
      ∧ metric_type p = lit "Continuous"
      ∧ distribution p = lit "Normal"
      ∧ variance p = lit "Equal"
      ∧ paths p = 4
      ∧ samples p = 1000
      ∧ expected_test p = lit "ANOVA".
Proof.
  split; [reflexivity |].
  split; [apply presets_lookup_range |].
  split; [reflexivity |].
  split.
  - unfold spec_table.
    repeat (apply Forall_cons; split;
            [eexists; split; [reflexivity | by repeat split] |]).
    apply Forall_nil_2.
  - eexists. split; [reflexivity |]. by repeat split.
Qed.

(** C6 (as stated, refuted): preset 18 does not have the configuration of
    preset 7; its variance is Unequal where preset 7 has Equal. *)
Lemma preset_18_differs_from_preset_7 :
  (∃ p q, presets !! 18 = Some p ∧ presets !! 7 = Some q
          ∧ variance p = lit "Unequal" ∧ variance q = lit "Equal")
  ∧ ¬ duplicates (18, 7)
  ∧ ¬ Forall duplicates spec_duplicates.
Proof.
  assert (¬ duplicates (18, 7)) as Hne.
  { intros (p & q & Hp & Hq & Hsame).
    change (presets !! 18 = Some p) in Hp. change (presets !! 7 = Some q) in Hq.
    assert (presets !! 18 = Some (mk_preset "Continuous" "Skewed" "Unequal" 4 1000
              "Kruskal-Wallis (reconfirm skew+variance)"
              "Kruskal-Wallis (reconfirm skew+variance)")) as Hp' by reflexivity.
    assert (presets !! 7 = Some (mk_preset "Continuous" "Skewed" "Equal" 4 1000
              "Kruskal-Wallis" "Kruskal-Wallis")) as Hq' by reflexivity.
    rewrite Hp' in Hp. rewrite Hq' in Hq.
    injection Hp as <-. injection Hq as <-.
    destruct Hsame as (_ & _ & Hv & _). discriminate Hv. }
  split; [by eexists _, _ |].
  split; [exact Hne |].
  intros Hall. unfold spec_duplicates in Hall.
  do 5 (apply Forall_cons in Hall as [_ Hall]).
  apply Forall_cons in Hall as [H18 _]. by apply Hne.
Qed.

(** C6 (amended): the entries 13 to 20 repeat the configurations of the
    presets 1, 4, 9, 10, 5, 8, 10, 12 respectively (metric type,
    distribution, variance, number of groups, sample size); preset 18 is
    Continuous, Skewed, Unequal variance, 4 groups, as preset 8 is. *)
Theorem catalog_duplicates_hold :
  Forall duplicates catalog_duplicates
  ∧ ∃ p, presets !! 18 = Some p
      ∧ metric_type p = lit "Continuous"
      ∧ distribution p = lit "Skewed"
      ∧ variance p = lit "Unequal"
      ∧ paths p = 4
      ∧ samples p = 1000.
Proof.
  split.
  - unfold catalog_duplicates.
    repeat (apply Forall_cons; split;
            [eexists _, _; split; [reflexivity |]; split; [reflexivity |];
             by repeat split |]).
    apply Forall_nil_2.
  - eexists. split; [reflexivity |]. by repeat split.
Qed.

(** C8 (as stated, refuted): for the unknown id 21 [load_scenario] returns
    normally, with the session state as it was; no error is signalled. *)
Lemma load_scenario_21_is_silent :
  load_scenario 21 empty_session = Return empty_session
  ∧ ¬ raises (load_scenario 21 empty_session).
Proof.
  split; [reflexivity |]. intros [e He]. discriminate He.
Qed.

(** C8 (amended): for an id in 1..20 the catalog holds a preset, and
    [load_scenario] returns with that preset loaded into the session state;
    for any other id the catalog has no entry (indexing it is a
    [KeyError]), and [load_scenario] returns normally, without signalling
    an error, leaving the session state exactly as it was. *)
Theorem load_scenario_by_id (id : Z) (st : session_state) :
  (1 <= id <= 20 →
   ∃ p st', getitem presets id = Return p
     ∧ load_scenario id st = Return st'
     ∧ ss_current_scenario st' = Some id
     ∧ ss_num_paths st' = Some (paths p)
     ∧ ss_metric_type st' = Some (metric_type p)
     ∧ ss_sample_size_per_path st' = Some (samples p)
     ∧ ss_file_name st'
       = Some (lit "test inputs/scenario" ++ str_of_int id ++ lit ".csv"))
  ∧ (¬ 1 <= id <= 20 →
     getitem presets id = Raise KeyError
     ∧ load_scenario id st = Return st
     ∧ ¬ raises (load_scenario id st)).
Proof.
  split.
  - intros Hid. apply presets_lookup_range in Hid as [p Hp].
    destruct (load_scenario_known id p st Hp)
      as (st' & Hload & H1 & H2 & H3 & H4 & H5 & _).
    exists p, st'. by rewrite (getitem_known _ _ _ Hp).
  - intros Hid. rewrite <- presets_lookup_range in Hid.
    assert (presets !! id = None) as Hnone.
    { destruct (presets !! id) eqn:E; [| done]. exfalso. apply Hid. by eexists. }
    rewrite (getitem_unknown _ _ Hnone), (load_scenario_unknown _ _ Hnone).
    split; [done |]. split; [done |]. intros [e He]. discriminate He.
Qed.

Lemma load_scenario_by_id_witness :
  (∃ p st', getitem presets 5 = Return p
     ∧ load_scenario 5 empty_session = Return st'
     ∧ ss_current_scenario st' = Some 5
     ∧ ss_num_paths st' = Some (paths p)
     ∧ ss_metric_type st' = Some (metric_type p)
     ∧ ss_sample_size_per_path st' = Some (samples p)
     ∧ ss_file_name st'
       = Some (lit "test inputs/scenario" ++ str_of_int 5 ++ lit ".csv"))
  ∧ (getitem presets 0 = Raise KeyError
     ∧ load_scenario 0 empty_session = Return empty_session
     ∧ ¬ raises (load_scenario 0 empty_session)).
Proof.
  split.
  - apply (load_scenario_by_id 5 empty_session). lia.
  - apply (load_scenario_by_id 0 empty_session). lia.
Defined.

(** C9 (as stated, refuted): loading preset 1 and then preset 9 leaves a
    Proportion configuration whose shape and variance are still set (to
    Normal and Equal), against the invariant. *)
Lemma stale_shape_after_proportion_preset :
  ∃ st1 st2,
    load_scenario 1 empty_session = Return st1
    ∧ load_scenario 9 st1 = Return st2
    ∧ ss_metric_type st2 = Some (lit "Proportion")
    ∧ ss_distribution_shape st2 = Some (lit "Normal")
    ∧ ss_variance_condition st2 = Some (lit "Equal")
    ∧ ¬ shape_variance_invariant st2.
Proof.
  eexists _, _. split; [reflexivity |]. split; [reflexivity |].
  split; [reflexivity |]. split; [reflexivity |]. split; [reflexivity |].
  intros [Hshape _]. destruct Hshape as [Hshape _].
  assert (Some (lit "Proportion") = Some (lit "Continuous")) as Heq
      by (apply Hshape; by eexists).
  discriminate Heq.
Qed.

(** C9 (amended): in the catalog the distribution is Normal or Skewed, and
    the variance Equal or Unequal, exactly for the Continuous entries (the
    other entries hold the placeholders Binary or Uniform and a dash).
    Loading a Continuous preset sets shape and variance to the preset's;
    loading a Proportion or Categorical preset leaves both attributes of
    the session state as they were. So the loaded configuration has shape
    and variance set exactly when its metric type is Continuous provided
    neither was set before the load. *)
Theorem shape_and_variance_follow_metric_type :
  (∀ k p, presets !! k = Some p →
     (distribution p ∈ [lit "Normal"; lit "Skewed"]
      ↔ metric_type p = lit "Continuous")
     ∧ (variance p ∈ [lit "Equal"; lit "Unequal"]
        ↔ metric_type p = lit "Continuous"))
  ∧ (∀ k p st, presets !! k = Some p →
     ∃ st', load_scenario k st = Return st'
       ∧ ss_metric_type st' = Some (metric_type p)
       ∧ (metric_type p = lit "Continuous" →
          ss_distribution_shape st' = Some (distribution p)
          ∧ ss_variance_condition st' = Some (variance p))
       ∧ (metric_type p ≠ lit "Continuous" →
          ss_distribution_shape st' = ss_distribution_shape st
          ∧ ss_variance_condition st' = ss_variance_condition st))
  ∧ (∀ k st st', is_Some (presets !! k) →
     ss_distribution_shape st = None → ss_variance_condition st = None →
     load_scenario k st = Return st' → shape_variance_invariant st').
Proof.
  split; [| split].
  - apply (presets_Forall (λ p,
      (distribution p ∈ [lit "Normal"; lit "Skewed"] ↔ metric_type p = lit "Continuous")
      ∧ (variance p ∈ [lit "Equal"; lit "Unequal"] ↔ metric_type p = lit "Continuous"))).
    compute_done.
  - intros k p st Hp.
    destruct (load_scenario_known k p st Hp)
      as (st' & Hload & _ & _ & Hm & _ & _ & Hsv).
    exists st'. split; [done |]. split; [done |].
    case_bool_decide; split; intros; done.
  - intros k st st' [p Hp] Hshape Hvar Hload.
    destruct (load_scenario_known k p st Hp)
      as (st'' & Hload' & _ & _ & Hm & _ & _ & Hsv).
    rewrite Hload in Hload'. injection Hload' as <-.
    unfold shape_variance_invariant. rewrite Hm.
    case_bool_decide as Hc.
    + destruct Hsv as [-> ->]. rewrite Hc. split; split; by eauto.
    + destruct Hsv as [-> ->]. rewrite Hshape, Hvar.
      split; split; intros H; try (by destruct H); injection H as H; done.
Qed.

Lemma shape_and_variance_follow_metric_type_witness :
  ((distribution (mk_preset "Proportion" "Binary" "-" 2 1000
                            "Two-Proportion Z-Test" "Two-Proportion Z-Test")
    ∈ [lit "Normal"; lit "Skewed"]
    ↔ lit "Proportion" = lit "Continuous")
   ∧ (lit "-" ∈ [lit "Equal"; lit "Unequal"] ↔ lit "Proportion" = lit "Continuous"))
  ∧ shape_variance_invariant
      {| ss_current_scenario := Some 9;
         ss_num_paths := Some 2;
         ss_metric_type := Some (lit "Proportion");
         ss_sample_size_per_path := Some 1000;
         ss_file_name := Some (lit "test inputs/scenario9.csv");
         ss_distribution_shape := None;
         ss_variance_condition := None |}.
Proof.
  destruct shape_and_variance_follow_metric_type as (Hcat & _ & Hinv).
  split.
  - apply (Hcat 9). reflexivity.
  - apply (Hinv 9 empty_session).
    + eexists. reflexivity.
    + reflexivity.
    + reflexivity.
    + reflexivity.
Defined.

(** ** The samplers *)

Lemma group_label_ok prefix i :
  0 <= i < max_paths → group_label prefix i = Return (label prefix i).
Proof.
  intros Hi. unfold group_label, chr, max_paths in *.
  replace ((0 <=? 65 + i) && (65 + i <? 1114112)) with true; [done |].
  symmetry. apply andb_true_iff. lia.
Qed.

Lemma group_label_too_far prefix i :
  max_paths <= i → group_label prefix i = Raise ValueError.
Proof.
  intros Hi. unfold group_label, chr, max_paths in *.
  replace (65 + i <? 1114112) with false by lia.
  by rewrite andb_false_r.
Qed.

Lemma group_label_returns prefix i name :
  0 <= i → group_label prefix i = Return name → name = label prefix i ∧ i < max_paths.
Proof.
  intros Hi Hname. destruct (Z.lt_ge_cases i max_paths) as [Hlt | Hge].
  - rewrite group_label_ok in Hname by lia. by injection Hname as <-.
  - by rewrite group_label_too_far in Hname.
Qed.

Lemma append_records_eq name values data uid :
  append_records name values (data, uid)
  = (data ++ records name uid values, uid + Z.of_nat (length values)).
Proof.
  unfold append_records. revert data uid.
  induction values as [| v values IH]; intros data uid; simpl.
  - by rewrite app_nil_r, Z.add_0_r.
  - rewrite IH. f_equal; [by rewrite <- app_assoc | lia].
Qed.

Lemma records_length name uid values :
  length (records name uid values) = length values.
Proof. revert uid. induction values; intros; simpl; by f_equal. Qed.

Lemma records_user_id name uid values :
  user_id <$> records name uid values = seqZ uid (Z.of_nat (length values)).
Proof.
  revert uid. induction values as [| v values IH]; intros uid; [done |].
  cbn [records length fmap list_fmap]. rewrite seqZ_cons by lia.
  rewrite Nat2Z.inj_succ, Z.pred_succ. f_equal. apply IH.
Qed.

Lemma records_group name uid values :
  group <$> records name uid values = replicate (length values) name.
Proof. revert uid. induction values; intros; simpl; by f_equal. Qed.

Lemma records_metric name uid values :
  metric <$> records name uid values = values.
Proof. revert uid. induction values; intros; simpl; by f_equal. Qed.

Lemma blocks_metric prefix i uid arrays :
  metric <$> blocks prefix i uid arrays = concat arrays.
Proof.
  revert i uid. induction arrays as [| vs arrays IH]; intros i uid; [done |].
  simpl. by rewrite fmap_app, records_metric, IH.
Qed.

(** With [size] values per group, the blocks have the shape of a data set. *)
Lemma blocks_shape prefix (size : nat) i uid arrays :
  Forall (λ vs, length vs = size) arrays →
  length (blocks prefix i uid arrays) = (length arrays * size)%nat
  ∧ user_id <$> blocks prefix i uid arrays
    = seqZ uid (Z.of_nat (length arrays * size))
  ∧ group <$> blocks prefix i uid arrays
    = concat ((λ k, replicate size (label prefix k))
              <$> seqZ i (Z.of_nat (length arrays))).
Proof.
  intros Hall. revert i uid.
  induction Hall as [| vs arrays Hvs _ IH]; intros i uid; [done |].
  destruct (IH (i + 1) (uid + Z.of_nat (length vs))) as (IHlen & IHid & IHgroup).
  cbn [blocks length]. split; [| split].
  - rewrite length_app, records_length, IHlen. lia.
  - rewrite fmap_app, records_user_id, IHid, Hvs.
    replace (Z.of_nat (S (length arrays) * size))
      with (Z.of_nat size + Z.of_nat (length arrays * size)) by lia.
    by rewrite seqZ_app by lia.
  - rewrite fmap_app, records_group, IHgroup, Hvs.
    rewrite (seqZ_cons i) by lia.
    rewrite Nat2Z.inj_succ, Z.pred_succ. done.
Qed.

Section Loop.
Context {G : Type} `{!Generator G}.
Implicit Types (st : np_random G) (draw : Z → py G (list metric_value)).
Implicit Types (P : Z → request → list metric_value → Prop).

Lemma variates_length {A} (next : G → A * G) n g :
  length (variates next n g).1 = n.
Proof.
  revert g. induction n as [| n IH]; intros g; [done |].
  simpl. destruct (next g) as [x g']. specialize (IH g').
  destruct (variates next n g') as [xs g'']. simpl in *. by f_equal.
Qed.

Lemma variates_Forall {A} (Q : A → Prop) (next : G → A * G) n g :
  (∀ g', Q (next g').1) → Forall Q (variates next n g).1.
Proof.
  intros HQ. revert g. induction n as [| n IH]; intros g; [by constructor |].
  simpl. specialize (HQ g). destruct (next g) as [x g']. specialize (IH g').
  destruct (variates next n g') as [xs g'']. by constructor.
Qed.

(** A served request returns [size] values and is entered in the history. *)
Lemma serve_spec {A} req (next : G → A * G) wrap size (Q : metric_value → Prop) st :
  (∀ g, Q (wrap (next g).1)) →
  ∃ vs st', serve req next wrap size st = Return (vs, st')
    ∧ history st' = history st ++ [(req, vs)]
    ∧ length vs = Z.to_nat size
    ∧ Forall Q vs.
Proof.
  intros HQ. unfold serve.
  pose proof (variates_length next (Z.to_nat size) (bit_generator st)) as Hlen.
  pose proof (variates_Forall (λ x, Q (wrap x)) next (Z.to_nat size)
                (bit_generator st) HQ) as Hall.
  destruct (variates next (Z.to_nat size) (bit_generator st)) as [xs g'].
  eexists _, _. split; [done |]. simpl in *.
  split; [done |]. split; [by rewrite length_map |].
  by apply Forall_fmap.
Qed.

Lemma for_range_from_ext {T} (body body' : Z → T → py G T) n i locals st :
  (∀ k l s, body k l s = body' k l s) →
  for_range_from i n body locals st = for_range_from i n body' locals st.
Proof.
  intros Hext. revert i locals st.
  induction n as [| n IH]; intros i locals st; [done |].
  simpl. unfold bind. rewrite Hext.
  destruct (body' i locals st) as [[locals' st'] | e]; [apply IH | done].
Qed.

(** One turn of the loop that returned. *)
Lemma group_body_returned draw prefix i data uid st locals' st' :
  0 <= i →
  group_body draw prefix i (data, uid) st = Return (locals', st') →
  ∃ vs, draw i st = Return (vs, st')
    ∧ locals' = (data ++ records (label prefix i) uid vs,
                 uid + Z.of_nat (length vs))
    ∧ i < max_paths.
Proof.
  intros Hi. unfold group_body, bind, lift, ret.
  destruct (group_label prefix i) as [name | e] eqn:Hname; [| done].
  apply group_label_returns in Hname as [-> Hlt]; [| done].
  destruct (draw i st) as [[vs st''] | e]; [| done].
  rewrite append_records_eq. intros [= <- <-]. by exists vs.
Qed.

(** The loop, when it returns: one served request per group, each
    satisfying the draw's postcondition [P], and the blocks of the
    groups appended to the data. *)
Lemma group_loop_returned draw P prefix n i data uid st locals' st' :
  (∀ k s vs s', 0 <= k → draw k s = Return (vs, s') →
     ∃ req, history s' = history s ++ [(req, vs)] ∧ P k req vs) →
  0 <= i →
  for_range_from i n (group_body draw prefix) (data, uid) st = Return (locals', st') →
  ∃ served,
    history st' = history st ++ served
    ∧ Forall2 (λ k call, P k call.1 call.2) (seqZ i (Z.of_nat n)) served
    ∧ locals' = (data ++ blocks prefix i uid (served.*2),
                 uid + Z.of_nat (length (concat (served.*2)))).
Proof.
  intros Hdraw. revert i data uid st.
  induction n as [| n IH]; intros i data uid st Hi Hrun.
  - injection Hrun as <- <-. exists []. simpl.
    rewrite !app_nil_r, Z.add_0_r. split; [done |]. split; [constructor | done].
  - cbn [for_range_from] in Hrun. unfold bind at 1 in Hrun.
    destruct (group_body draw prefix i (data, uid) st)
      as [[locals1 st1] | e] eqn:Hbody; [| done].
    apply group_body_returned in Hbody as (vs & Hvs & -> & _); [| done].
    destruct (Hdraw _ _ _ _ Hi Hvs) as (req & Hhist & HP).
    apply IH in Hrun as (served & Hhist' & Hall & ->); [| lia].
    exists ((req, vs) :: served). split; [| split].
    + rewrite Hhist', Hhist, <- app_assoc. done.
    + rewrite seqZ_cons by lia. rewrite Nat2Z.inj_succ, Z.pred_succ.
      by constructor.
    + cbn [fmap list_fmap snd blocks concat]. rewrite <- app_assoc.
      f_equal. rewrite length_app. lia.
Qed.

(** The loop returns when every draw does and every letter exists. *)
Lemma group_loop_returns draw prefix n i locals st :
  (∀ k s, 0 <= k → returns (draw k s)) →
  0 <= i → i + Z.of_nat n <= max_paths →
  returns (for_range_from i n (group_body draw prefix) locals st).
Proof.
  intros Hdraw. revert i locals st.
  induction n as [| n IH]; intros i locals st Hi Hn; [by eexists |].
  cbn [for_range_from]. unfold bind at 1, group_body, bind, lift, ret.
  rewrite group_label_ok by lia.
  destruct (Hdraw i st Hi) as [[vs st'] ->].
  apply IH; lia.
Qed.

(** The loop raises when a group without a letter is in its range. *)
Lemma group_loop_raises draw prefix n i locals st :
  0 <= i <= max_paths → max_paths < i + Z.of_nat n →
  raises (for_range_from i n (group_body draw prefix) locals st).
Proof.
  revert i locals st.
  induction n as [| n IH]; intros i locals st Hi Hn; [lia |].
  cbn [for_range_from]. unfold bind at 1.
  destruct (group_body draw prefix i locals st) as [[locals1 st1] | e] eqn:Hbody;
    [| by eexists].
  destruct locals as [data uid].
  apply group_body_returned in Hbody as (_ & _ & _ & Hlt); [| lia].
  apply IH; lia.
Qed.

(** A sampler is the group loop from no data and id 1, followed by the
    construction of the data frame. *)
Lemma sampler_as_group_loop body draw prefix n st :
  (∀ k l s, body k l s = group_body draw prefix k l s) →
  (let* locals := for_range n body ([], 1) in ret (fst locals)) st
  = group_loop draw prefix n st.
Proof.
  intros Hext. unfold group_loop, bind, for_range, ret.
  rewrite (for_range_from_ext _ _ _ _ _ _ Hext).
  by destruct (for_range_from _ _ _ _ _) as [[locals st'] | e].
Qed.

Lemma sampler_returned draw laws good prefix n size st df st' :
  (∀ k s vs s', 0 <= k → draw k s = Return (vs, s') →
     ∃ req, history s' = history s ++ [(req, vs)]
       ∧ asks_for req (laws k) size
       ∧ length vs = Z.to_nat size
       ∧ Forall good vs) →
  group_loop draw prefix n st = Return (df, st') →
  groups_draw laws good n size st st' df
  ∧ (0 <= n → 0 <= size → well_formed n size prefix df).
Proof.
  intros Hdraw Hrun. unfold group_loop in Hrun.
  destruct (for_range_from _ _ _ _ _) as [[locals st''] | e] eqn:Hloop; [| done].
  injection Hrun as <- <-.
  eapply (group_loop_returned draw
            (λ k req vs, asks_for req (laws k) size
                         ∧ length vs = Z.to_nat size ∧ Forall good vs))
    in Hloop as (served & Hhist & Hall & ->); [| done | done].
  assert (seqZ 0 (Z.of_nat (Z.to_nat n)) = seqZ 0 n) as Hseq
      by (unfold seqZ; by rewrite Nat2Z.id).
  rewrite Hseq in Hall. cbn [fst app].
  split.
  - exists served. split; [done |]. split; [done |]. apply blocks_metric.
  - intros Hn Hsize.
    assert (length (served.*2) = Z.to_nat n) as Hlen.
    { rewrite length_fmap, <- (Forall2_length _ _ _ Hall), length_seqZ. done. }
    assert (Forall (λ vs, length vs = Z.to_nat size) (served.*2)) as Hsizes.
    { apply Forall_fmap. clear -Hall.
      induction Hall as [| k call ks calls (_ & Hl & _) _ IH]; by constructor. }
    destruct (blocks_shape prefix (Z.to_nat size) 0 1 (served.*2) Hsizes)
      as (Hl & Hid & Hgroup).
    unfold well_formed. rewrite Hid, Hgroup, Hl, Hlen.
    replace (Z.of_nat (Z.to_nat n * Z.to_nat size)) with (n * size) by nia.
    by rewrite Z2Nat.id by lia.
Qed.
End Loop.

(** *** The arguments of the requests *)

Lemma inject_Z_nonneg k : 0 <= k → (0 <= inject_Z k)%Q.
Proof. intros Hk. unfold Qle. simpl. lia. Qed.

Lemma proportion_probability k :
  0 <= k →
  (min2 (0.3 + inject_Z k * 0.2) 0.9 == spec_probability k)%Q
  ∧ (0.3 <= min2 (0.3 + inject_Z k * 0.2) 0.9 <= 0.9)%Q.
Proof.
  intros Hk. apply inject_Z_nonneg in Hk.
  unfold min2, spec_probability.
  destruct (Qle_bool (0.3 + inject_Z k * 0.2) 0.9) eqn:Hle.
  - apply Qle_bool_iff in Hle. split; [| split; [lra | done]].
    rewrite Q.min_l; lra.
  - assert (¬ (0.3 + inject_Z k * 0.2 <= 0.9)%Q) as Hgt
        by (rewrite <- Qle_bool_iff, Hle; done).
    split; [| lra]. rewrite Q.min_r; lra.
Qed.

Lemma spec_weights_eq k : spec_weights k = category_weights k.
Proof.
  unfold category_weights.
  destruct (Z.eqb_spec k 0) as [-> | H0]; [done |].
  destruct (Z.eqb_spec k 1) as [-> | H1]; [done |].
  destruct (Z.eqb_spec k 2) as [-> | H2]; [done |].
  destruct k as [| p | p]; [done | | done].
  destruct p as [[p | p |] | [p | p |] |]; done.
Qed.

Lemma category_weights_cases k :
  category_weights k ∈ category_weights <$> [0; 1; 2; 3].
Proof.
  unfold category_weights at 1.
  destruct (Z.eqb_spec k 0); [set_solver |].
  destruct (Z.eqb_spec k 1); [set_solver |].
  destruct (Z.eqb_spec k 2); set_solver.
Qed.

(** Normalising a weight vector of the sampler succeeds and changes no
    weight; the result passes the checks of [np.random.choice]. *)
Lemma normalize_weights_ok k :
  ∃ ws, normalize_weights (category_weights k) = Return ws
    ∧ Forall2 Qeq ws (category_weights k)
    ∧ (sum ws == 1)%Q
    ∧ length ws = 6%nat
    ∧ forallb (Qle_bool 0) ws = true
    ∧ Qle_bool (Qabs (sum ws - 1)) choice_atol = true.
Proof.
  pose proof (category_weights_cases k) as Hcases.
  cbn [fmap list_fmap] in Hcases.
  repeat (apply elem_of_cons in Hcases as [-> | Hcases];
          [eexists; split; [vm_compute; reflexivity |];
           split; [repeat constructor |]; done |]).
  by apply elem_of_nil in Hcases.
Qed.

Section Requests.
Context {G : Type} `{!Generator G}.
Implicit Types (st : np_random G).

(** Reduce a wrapper to its served request, or to the failed check. *)
Ltac served check HQ :=
  let Hserve := fresh "Hserve" in
  destruct check;
  [ by (intros; try (exfalso; done))
  | intros Hserve;
    match type of Hserve with
    | serve ?req ?next ?wrap ?size ?st = _ =>
      destruct (serve_spec req next wrap size _ st HQ)
        as (vs0 & st0 & Hserve0 & Hhist0 & Hlen0 & Hall0);
      rewrite Hserve0 in Hserve; injection Hserve as <- <-; done
    end ].

Lemma np_random_normal_returned loc scale size st vs st' :
  np_random_normal loc scale size st = Return (vs, st') →
  history st' = history st ++ [(ReqNormal loc scale size, vs)]
  ∧ length vs = Z.to_nat size ∧ Forall is_float vs.
Proof.
  unfold np_random_normal.
  assert (∀ g, is_float (MFloat (variate_normal loc scale g).1)) as HQ
      by (intros; by eexists).
  served ((size <? 0) || negb (Qle_bool 0 scale)) HQ.
Qed.

Lemma np_random_gamma_returned shape scale size st vs st' :
  np_random_gamma shape scale size st = Return (vs, st') →
  history st' = history st ++ [(ReqGamma shape scale size, vs)]
  ∧ length vs = Z.to_nat size ∧ Forall is_float vs.
Proof.
  unfold np_random_gamma.
  assert (∀ g, is_float (MFloat (variate_gamma shape scale g).1)) as HQ
      by (intros; by eexists).
  served ((size <? 0) || negb (Qle_bool 0 shape) || negb (Qle_bool 0 scale)) HQ.
Qed.

Lemma np_random_binomial_returned p size st vs st' :
  np_random_binomial 1 p size st = Return (vs, st') →
  history st' = history st ++ [(ReqBinomial 1 p size, vs)]
  ∧ length vs = Z.to_nat size ∧ Forall is_bit vs.
Proof.
  unfold np_random_binomial.
  assert (∀ g, is_bit (MInt (variate_binomial 1 p g).1)) as HQ.
  { intros g. pose proof (variate_binomial_range 1 p g) as Hrange.
    unfold is_bit.
    destruct (decide ((variate_binomial 1 p g).1 = 0)) as [-> | Hne]; [by left |].
    right. f_equal. lia. }
  served ((size <? 0) || (1 <? 0) || negb (Qle_bool 0 p) || negb (Qle_bool p 1)) HQ.
Qed.

Lemma np_random_choice_returned a size p st vs st' :
  np_random_choice a size p st = Return (vs, st') →
  history st' = history st ++ [(ReqChoice a size p, vs)]
  ∧ length vs = Z.to_nat size
  ∧ (size = 0 ∨ Forall (λ v, ∃ c, v = MStr c ∧ c ∈ a) vs).
Proof.
  unfold np_random_choice.
  destruct ((size <? 0) || negb (length p =? length a)%nat
            || negb (forallb (Qle_bool 0) p)
            || negb (Qle_bool (Qabs (sum p - 1)) choice_atol)
            || (bool_decide (a = []) && negb (size =? 0))) eqn:Hcheck; [done |].
  repeat (apply orb_false_iff in Hcheck as [Hcheck ?]).
  intros Hserve.
  destruct (decide (a = [])) as [-> | Hne].
  - rewrite bool_decide_eq_true_2 in * by done.
    assert (size = 0) as -> by (destruct (Z.eqb_spec size 0); done).
    destruct (serve_spec (ReqChoice [] 0 p) (variate_index p)
                (λ k, MStr (nth k [] [])) 0 (λ _, True) st)
      as (vs0 & st0 & Hserve0 & Hhist0 & Hlen0 & _); [done |].
    rewrite Hserve0 in Hserve. injection Hserve as <- <-. by eauto.
  - assert (length p = length a) as Hlen.
    { apply Nat.eqb_eq. by destruct (length p =? length a)%nat. }
    assert (p ≠ []) as Hp by (intros ->; by destruct a).
    destruct (serve_spec (ReqChoice a size p) (variate_index p)
                (λ k, MStr (nth k a [])) size
                (λ v, ∃ c, v = MStr c ∧ c ∈ a) st)
      as (vs0 & st0 & Hserve0 & Hhist0 & Hlen0 & Hall0).
    { intros g. eexists. split; [done |].
      apply list_elem_of_In, nth_In. rewrite <- Hlen.
      by apply variate_index_range. }
    rewrite Hserve0 in Hserve. injection Hserve as <- <-. by eauto.
Qed.

Lemma serve_returns {A} req (next : G → A * G) wrap size st :
  returns (serve req next wrap size st).
Proof.
  destruct (serve_spec req next wrap size (λ _, True) st) as (vs & st' & -> & _);
    [done | by eexists].
Qed.

(** The draws of the samplers: what they request when they return. *)
Lemma continuous_draw_returned size shape var k st vs st' :
  0 <= k →
  continuous_draw size shape var k st = Return (vs, st') →
  ∃ req, history st' = history st ++ [(req, vs)]
    ∧ asks_for req (continuous_law (branch_shape shape) (branch_variance var) k) size
    ∧ length vs = Z.to_nat size
    ∧ Forall is_float vs.
Proof.
  intros Hk. unfold continuous_draw, branch_shape, branch_variance.
  do 2 case_bool_decide; intros Hdraw;
    [ apply np_random_normal_returned in Hdraw as (Hhist & Hlen & Hall)
    | apply np_random_normal_returned in Hdraw as (Hhist & Hlen & Hall)
    | apply np_random_gamma_returned in Hdraw as (Hhist & Hlen & Hall)
    | apply np_random_gamma_returned in Hdraw as (Hhist & Hlen & Hall) ];
    (eexists; split; [exact Hhist |]; split; [| done]);
    cbn [asks_for continuous_law]; (split; [| split; [| done]]);
    rewrite ?inject_Z_plus, ?inject_Z_mult; try reflexivity; ring.
Qed.

Lemma continuous_draw_returns size shape var k st :
  0 <= size → 0 <= k → returns (continuous_draw size shape var k st).
Proof.
  intros Hsize Hk.
  assert ((size <? 0) = false) as Hs by lia.
  assert (Qle_bool 0 (inject_Z (10 + k * 5)) = true) as Hscale.
  { apply Qle_bool_iff, inject_Z_nonneg. lia. }
  assert (Qle_bool 0 (2 + inject_Z k * 0.5) = true) as Hshape.
  { apply Qle_bool_iff. pose proof (inject_Z_nonneg k Hk). lra. }
  unfold continuous_draw, np_random_normal, np_random_gamma.
  rewrite Hs, Hscale, Hshape.
  do 2 case_bool_decide; apply serve_returns.
Qed.

Lemma proportion_draw_returned size k st vs st' :
  0 <= k →
  proportion_draw size k st = Return (vs, st') →
  ∃ req, history st' = history st ++ [(req, vs)]
    ∧ asks_for req (BernoulliLaw (spec_probability k)) size
    ∧ length vs = Z.to_nat size
    ∧ Forall is_bit vs.
Proof.
  intros Hk Hdraw.
  apply np_random_binomial_returned in Hdraw as (Hhist & Hlen & Hall).
  eexists. split; [exact Hhist |]. split; [| done].
  cbn [asks_for]. split; [done |]. split; [| done].
  by apply proportion_probability.
Qed.

Lemma proportion_draw_returns size k st :
  0 <= size → 0 <= k → returns (proportion_draw size k st).
Proof.
  intros Hsize Hk.
  destruct (proportion_probability k Hk) as (_ & Hlo & Hhi).
  unfold proportion_draw, np_random_binomial.
  assert ((size <? 0) = false) as -> by lia.
  replace (Qle_bool 0 (min2 (0.3 + inject_Z k * 0.2) 0.9)) with true
    by (symmetry; apply Qle_bool_iff; lra).
  replace (Qle_bool (min2 (0.3 + inject_Z k * 0.2) 0.9) 1) with true
    by (symmetry; apply Qle_bool_iff; lra).
  apply serve_returns.
Qed.

Lemma categorical_draw_returned size k st vs st' :
  0 <= k →
  categorical_draw size k st = Return (vs, st') →
  ∃ req, history st' = history st ++ [(req, vs)]
    ∧ asks_for req (CategoricalLaw spec_categories (spec_weights k)) size
    ∧ length vs = Z.to_nat size
    ∧ Forall is_category vs.
Proof.
  intros Hk. unfold categorical_draw, bind, lift.
  destruct (normalize_weights_ok k) as (ws & -> & Hws & _ & Hlen & _).
  rewrite Hlen. change (take 6 categories) with spec_categories.
  intros Hdraw.
  apply np_random_choice_returned in Hdraw as (Hhist & Hl & Hall).
  eexists. split; [exact Hhist |]. split; [| split; [done |]].
  - cbn [asks_for]. by rewrite spec_weights_eq.
  - destruct Hall as [-> | Hall]; [| done].
    destruct vs; [constructor | done].
Qed.

Lemma categorical_draw_returns size k st :
  0 <= size → returns (categorical_draw size k st).
Proof.
  intros Hsize. unfold categorical_draw, bind, lift.
  destruct (normalize_weights_ok k) as (ws & -> & _ & _ & Hlen & Hpos & Hsum).
  unfold np_random_choice. rewrite Hlen, Hpos, Hsum.
  assert ((size <? 0) = false) as -> by lia.
  change (take 6 categories) with categories.
  apply serve_returns.
Qed.
End Requests.

Section SamplerLoops.
Context {G : Type} `{!Generator G}.
Implicit Types (st : np_random G).

Lemma generate_continuous_data_loop n size shape var prefix st :
  generate_continuous_data n size shape var prefix st
  = group_loop (continuous_draw size shape var) prefix n st.
Proof.
  unfold generate_continuous_data. apply sampler_as_group_loop.
  by intros k [data uid] s.
Qed.

Lemma generate_proportion_data_loop n size prefix st :
  generate_proportion_data n size prefix st
  = group_loop (proportion_draw size) prefix n st.
Proof.
  unfold generate_proportion_data. apply sampler_as_group_loop.
  by intros k [data uid] s.
Qed.

Lemma generate_categorical_data_loop n size prefix st :
  generate_categorical_data n size prefix st
  = group_loop (categorical_draw size) prefix n st.
Proof.
  unfold generate_categorical_data. apply sampler_as_group_loop.
  intros k [data uid] s. unfold group_body, categorical_draw, bind, lift.
  destruct (group_label prefix k); [| done].
  by destruct (normalize_weights (category_weights k)).
Qed.

Lemma group_loop_result_returns draw prefix n st :
  (∀ k s, 0 <= k → returns (draw k s)) →
  n <= max_paths →
  returns (group_loop draw prefix n st).
Proof.
  intros Hdraw Hn. unfold group_loop.
  destruct (group_loop_returns draw prefix (Z.to_nat n) 0 ([], 1) st Hdraw)
    as [[locals st'] ->]; [done | unfold max_paths in *; lia |].
  by eexists.
Qed.

Lemma group_loop_result_raises draw prefix n st :
  max_paths < n → raises (group_loop draw prefix n st).
Proof.
  intros Hn. unfold group_loop.
  destruct (group_loop_raises draw prefix (Z.to_nat n) 0 ([], 1) st)
    as [e ->]; [done | unfold max_paths in *; lia |].
  by eexists.
Qed.

(** A draw that raises stops the loop at its first turn. *)
Lemma group_loop_result_draw_raises draw prefix n st :
  0 < n → (∀ k s, raises (draw k s)) → raises (group_loop draw prefix n st).
Proof.
  intros Hn Hdraw. unfold group_loop.
  destruct (Z.to_nat n) as [| m] eqn:Hm; [lia |].
  cbn [for_range_from]. unfold bind at 1, group_body, bind, lift.
  destruct (group_label prefix 0); [| by eexists].
  destruct (Hdraw 0 st) as [e ->]. by eexists.
Qed.

Lemma continuous_draw_negative_size size shape var k st :
  size < 0 → raises (continuous_draw size shape var k st).
Proof.
  intros Hsize.
  unfold continuous_draw, np_random_normal, np_random_gamma.
  assert ((size <? 0) = true) as -> by lia. cbn [orb].
  do 2 case_bool_decide; by eexists.
Qed.

(** When the continuous sampler raises: a group without a letter, or a
    negative size with at least one group. *)
Lemma generate_continuous_data_raises n size shape var prefix st :
  raises (generate_continuous_data n size shape var prefix st)
  ↔ max_paths < n ∨ (0 < n ∧ size < 0).
Proof.
  rewrite generate_continuous_data_loop. split.
  - intros [e He].
    destruct (Z.le_gt_cases n max_paths) as [Hle | Hgt]; [| left; lia].
    destruct (Z.lt_ge_cases size 0) as [Hneg | Hpos].
    + destruct (Z.lt_ge_cases 0 n) as [Hn | Hn]; [by right |].
      exfalso. unfold group_loop in He.
      replace (Z.to_nat n) with 0%nat in He by lia. done.
    + exfalso.
      destruct (group_loop_result_returns (continuous_draw size shape var) prefix n st)
        as [a Ha]; [| done |].
      * intros k s Hk. by apply continuous_draw_returns.
      * rewrite Ha in He. done.
  - intros [Hgt | [Hn Hsize]].
    + by apply group_loop_result_raises.
    + apply group_loop_result_draw_raises; [done |].
      intros k s. by apply continuous_draw_negative_size.
Qed.
(** What the continuous sampler requested, by the branch its arguments
    select. *)
Lemma generate_continuous_data_returned n size shape var prefix st df st' :
  generate_continuous_data n size shape var prefix st = Return (df, st') →
  groups_draw (continuous_law (branch_shape shape) (branch_variance var)) is_float
              n size st st' df.
Proof.
  rewrite generate_continuous_data_loop. intros Hrun.
  eapply sampler_returned in Hrun as [Hdraw _]; [exact Hdraw |].
  intros k s vs s' Hk Hdraw. by apply continuous_draw_returned.
Qed.
End SamplerLoops.

(** *** The claims on the samplers *)






Lemma groups_draw_metrics {G} laws good n size (st st' : np_random G) df :
  groups_draw laws good n size st st' df → Forall (λ r, good (metric r)) df.
Proof.
  intros (served & _ & Hall & Hmetric).
  apply Forall_fmap. unfold compose in *.
  change (Forall good (metric <$> df)). rewrite Hmetric.
  apply Forall_concat, Forall_fmap.
  clear -Hall. induction Hall as [| k call ks calls (_ & _ & Hgood) _ IH];
    by constructor.
Qed.





(** *** Validation *)

Lemma validate_inputs_messages num_paths size prefix file_name :
  validate_inputs num_paths size prefix file_name
  = (if num_paths <=? 0 then [lit "Number of Paths must be greater than 0"] else [])
    ++ (if size <=? 0 then [lit "Sample Size Per Path must be greater than 0"] else [])
    ++ (if bool_decide (strip prefix = [])
        then [lit "Group Label Prefix cannot be empty"] else [])
    ++ (if bool_decide (strip file_name = []) then [lit "File Name cannot be empty"]
        else if negb (endswith file_name (lit ".csv"))
             then [lit "File Name must end with .csv"] else []).
Proof.
  unfold validate_inputs.
  destruct (num_paths <=? 0), (size <=? 0), (bool_decide (strip prefix = [])),
    (bool_decide (strip file_name = [])), (negb (endswith file_name (lit ".csv")));
    reflexivity.
Qed.

(** Called directly, without validation, the samplers do not reject a
    configuration without groups: they return an empty data frame. *)
Lemma samplers_without_groups {G} `{!Generator G}
    (num_paths size : Z) (shape var : option pystr) (prefix : pystr) (st : np_random G) :
  num_paths <= 0 →
  generate_continuous_data num_paths size shape var prefix st = Return ([], st)
  ∧ generate_proportion_data num_paths size prefix st = Return ([], st)
  ∧ generate_categorical_data num_paths size prefix st = Return ([], st).
Proof.
  intros Hn.
  rewrite generate_continuous_data_loop, generate_proportion_data_loop,
    generate_categorical_data_loop.
  unfold group_loop. by replace (Z.to_nat num_paths) with 0%nat by lia.
Qed.

(** C7: generation with [numGroups <= 0] or [sampleSizePerGroup <= 0]
    (in particular with 0) fails: the generate step reports the validation
    errors, which name the offending count, at once: no sampler runs, no
    request reaches the generator, and no data set, partial or not, is
    produced. *)
Theorem generation_rejects_nonpositive_counts {G} `{!Generator G}
    (num_paths size : Z) (metric_type : pystr) (shape var : option pystr)
    (prefix file_name : pystr) (st : np_random G) :
  num_paths <= 0 ∨ size <= 0 →
  ∃ errors,
    main_generate num_paths size metric_type shape var prefix file_name st
    = Return (Rejected errors, st)
    ∧ errors = validate_inputs num_paths size prefix file_name
    ∧ errors ≠ []
    ∧ (num_paths <= 0 → lit "Number of Paths must be greater than 0" ∈ errors)
    ∧ (size <= 0 → lit "Sample Size Per Path must be greater than 0" ∈ errors).
Proof.
  intros Hbad.
  assert ((num_paths <= 0 →
           lit "Number of Paths must be greater than 0"
           ∈ validate_inputs num_paths size prefix file_name)
          ∧ (size <= 0 →
             lit "Sample Size Per Path must be greater than 0"
             ∈ validate_inputs num_paths size prefix file_name)) as [Hpaths Hsize].
  { rewrite validate_inputs_messages. split; intros Hle.
    - replace (num_paths <=? 0) with true by lia.
      apply elem_of_app. left. apply list_elem_of_here.
    - replace (size <=? 0) with true by lia.
      apply elem_of_app. right. apply elem_of_app. left. apply list_elem_of_here. }
  assert (validate_inputs num_paths size prefix file_name ≠ []) as Hne.
  { intros Hnil. rewrite Hnil in Hpaths, Hsize.
    destruct Hbad as [Hle | Hle]; [apply Hpaths in Hle | apply Hsize in Hle];
      by apply elem_of_nil in Hle. }
  exists (validate_inputs num_paths size prefix file_name).
  split; [| done].
  unfold main_generate. by rewrite bool_decide_eq_false_2.
Qed.

Lemma generation_rejects_nonpositive_counts_witness :
  ∃ errors,
    main_generate 0 1000 (lit "Continuous") (shape_arg Normal) (variance_arg Equal)
                  (lit "Group") (lit "test inputs/synthetic_data.csv") fresh
    = Return (Rejected errors, fresh)
    ∧ errors = validate_inputs 0 1000 (lit "Group") (lit "test inputs/synthetic_data.csv")
    ∧ errors ≠ []
    ∧ (0 <= 0 → lit "Number of Paths must be greater than 0" ∈ errors)
    ∧ (1000 <= 0 → lit "Sample Size Per Path must be greater than 0" ∈ errors).
Proof.
  apply (generation_rejects_nonpositive_counts 0 1000). left. lia.
Defined.


